(** * The location of a micro app: src/sandbox/router/location.ts

    A shallow embedding of [createMicroLocation] and [updateLocation].
    The facade object and its [shadowLocation] are a record held in an
    explicit world; every call the code makes on the host page
    ([rawWindow.history], [rawLocation], [dispatchPurePopStateEvent]) is
    appended, in order, to the world's list of calls.  The two imported
    helpers [createURL] and [setMicroPathToURL] live in other files of the
    repository, and the setters of a URL object belong to the browser: the
    three are taken as an interface. *)

From Stdlib Require Import String Ascii List Bool Arith Lia.
Import ListNotations.
Open Scope string_scope.

(** ** Data *)

(** What [createURL] returns: the properties of a resolved URL that
    location.ts reads. *)
Module URL.
Record t := mk {
  href : string;
  origin : string;
  protocol : string;
  password : string;
  host : string;
  hostname : string;
  port : string;
  pathname : string;
  search : string;
  hash : string
}.
End URL.

(** The names of the location properties, as used for keyed access
    [obj[key]]. *)
Module Key.
Inductive t :=
| hash | host | hostname | href | origin
| password | pathname | port | protocol | search.

Definition eqb (a b : t) : bool :=
  match a, b with
  | hash, hash | host, host | hostname, hostname | href, href
  | origin, origin | password, password | pathname, pathname
  | port, port | protocol, protocol | search, search => true
  | _, _ => false
  end.
End Key.

(** [newLocation[key]] *)
Definition URL_get (key : Key.t) (u : URL.t) : string :=
  match key with
  | Key.hash => URL.hash u
  | Key.host => URL.host u
  | Key.hostname => URL.hostname u
  | Key.href => URL.href u
  | Key.origin => URL.origin u
  | Key.password => URL.password u
  | Key.pathname => URL.pathname u
  | Key.port => URL.port u
  | Key.protocol => URL.protocol u
  | Key.search => URL.search u
  end.

(** [string | URL], the argument of assign, replace and the href setter. *)
Inductive Value :=
| VString (s : string)
| VURL (u : URL.t).

(** The object literal [shadowLocation].  It is a plain object, so a keyed
    store under any other name would add a property: [expando] holds
    those. *)
Module ShadowLocation.
Record t := mk {
  href : string;
  pathname : string;
  search : string;
  hash : string;
  expando : list (Key.t * string)
}.

(** [shadowLocation[key] = v] *)
Definition set (key : Key.t) (v : string) (s : t) : t :=
  match key with
  | Key.href => mk v (pathname s) (search s) (hash s) (expando s)
  | Key.pathname => mk (href s) v (search s) (hash s) (expando s)
  | Key.search => mk (href s) (pathname s) v (hash s) (expando s)
  | Key.hash => mk (href s) (pathname s) (search s) v (expando s)
  | _ => mk (href s) (pathname s) (search s) (hash s) ((key, v) :: expando s)
  end.
End ShadowLocation.

(** The facade [microLocation].  It is the URL object that
    [createURL(url)] returned ([self]: what the getters of the URL
    prototype show of it), with [shadowLocation] attached by [oAssign] and
    href, pathname, search and hash redefined on it as accessors over the
    shadow.  Its other properties (origin, protocol, host, ...) are still
    those of the URL prototype.  [appName] and [url] are the two arguments
    of [createMicroLocation] that its closures capture. *)
Module MicroLocation.
Record t := mk {
  appName : string;
  url : string;
  self : URL.t;
  shadowLocation : ShadowLocation.t
}.

(** [microLocation.origin] *)
Definition origin (m : t) : string := URL.origin (self m).

Definition with_shadowLocation (s : ShadowLocation.t) (m : t) : t :=
  mk (appName m) (url m) (self m) s.

Definition with_self (u : URL.t) (m : t) : t :=
  mk (appName m) (url m) u (shadowLocation m).
End MicroLocation.

(** The value [setMicroPathToURL] returns. *)
Record HandleMicroPathResult := {
  fullPath : string;
  attach2Hash : bool
}.

(** Calls made on the host page. *)
Inductive Event :=
| HistoryCall (methodName : string) (path : string)
    (* rawWindow.history[methodName](null, '', path) *)
| PurePopState
    (* dispatchPurePopStateEvent() *)
| Reload (forcedReload : option bool)
    (* rawLocation.reload(forcedReload) *)
| LocationCall (locationMethodName : string) (v : Value)
    (* rawLocation[locationMethodName](v) *)
| LocationHref (v : Value).
    (* rawLocation.href = v *)

Record World := {
  location : MicroLocation.t;
  calls : list Event
}.

(** ** Effects: state and exceptions *)

Inductive Outcome (A : Type) :=
| Returned (a : A) (w : World)
| Thrown (w : World).
Arguments Returned {A} a w.
Arguments Thrown {A} w.

Definition M (A : Type) := World -> Outcome A.

Definition ret {A} (a : A) : M A := fun w => Returned a w.

Definition bind {A B} (c : M A) (k : A -> M B) : M B :=
  fun w =>
    match c w with
    | Returned a w' => k a w'
    | Thrown w' => Thrown w'
    end.

Definition throw {A} : M A := fun w => Thrown w.

Notation "x <- c ;; k" := (bind c (fun x => k))
  (at level 61, c at next level, right associativity).
Notation "c ;; k" := (bind c (fun _ => k))
  (at level 61, right associativity).

Definition call (e : Event) : M unit :=
  fun w => Returned tt {| location := location w; calls := calls w ++ [e] |}.

Definition getLocation : M MicroLocation.t :=
  fun w => Returned (location w) w.

Definition getShadow : M ShadowLocation.t :=
  fun w => Returned (MicroLocation.shadowLocation (location w)) w.

Definition putLocation (m : MicroLocation.t) : M unit :=
  fun w => Returned tt {| location := m; calls := calls w |}.

Definition world_after {A} (o : Outcome A) : World :=
  match o with
  | Returned _ w => w
  | Thrown w => w
  end.

(** The calls an execution started in [w] has added. *)
Definition emitted {A} (w : World) (o : Outcome A) : list Event :=
  skipn (length (calls w)) (calls (world_after o)).

(** ** Imported helpers *)

(** [createURL] is [new URL('' + path, base)]: it throws on a malformed
    input ([None]).  [setMicroPathToURL] reads the address of the host page,
    which the history calls made so far have set; they are its first
    argument.  [URL_set key v u] is the URL object [u] after the store
    [u[key] = v] has run the setter that the URL prototype has for host,
    hostname, port, protocol or password: the browser may take the value,
    change it or refuse it, and the origin follows the scheme, host and
    port it is left with.  None of these setters throws. *)
Class Env := {
  createURL : Value -> option string -> option URL.t;
  setMicroPathToURL : list Event -> string -> URL.t -> HandleMicroPathResult;
  URL_set : Key.t -> string -> URL.t -> URL.t
}.

(** ** JavaScript helpers *)

(** [if (s)] on a string *)
Definition truthy (s : string) : bool := negb (s =? "").

(** [if (v)] on [string | URL | undefined] *)
Definition truthy_value (v : option Value) : bool :=
  match v with
  | None => false
  | Some (VString s) => truthy s
  | Some (VURL _) => true
  end.

Fixpoint strip_leading (c : ascii) (s : string) : string :=
  match s with
  | String a s' => if Ascii.eqb a c then strip_leading c s' else s
  | EmptyString => s
  end.

(** [s.replace(/^c+/, 'c')] *)
Definition replace_leading (c : ascii) (s : string) : string :=
  match s with
  | String a s' => if Ascii.eqb a c then String c (strip_leading c s') else s
  | EmptyString => s
  end.

(** [arr.includes(key)] *)
Definition includes (keys : list Key.t) (key : Key.t) : bool :=
  existsb (Key.eqb key) keys.

(** ** createMicroLocation *)

Section Location.
Context `{Env}.

Definition resolve (value : Value) (base : option string) : M URL.t :=
  match createURL value base with
  | Some u => ret u
  | None => throw
  end.

Definition encode (appName : string) (target : URL.t) : M HandleMicroPathResult :=
  fun w => Returned (setMicroPathToURL (calls w) appName target) w.

Definition history (methodName path : string) : M unit :=
  call (HistoryCall methodName path).

Definition dispatchPurePopStateEvent : M unit := call PurePopState.

Definition rawReload (forcedReload : option bool) : M unit :=
  call (Reload forcedReload).

(** The object [createMicroLocation (appName, url)] returns, before any
    navigation. *)
Definition createMicroLocation (appName url : string) : option MicroLocation.t :=
  match createURL (VString url) None with
  | None => None
  | Some microLocation =>
      Some (MicroLocation.mk appName url microLocation
              (ShadowLocation.mk
                 (URL.href microLocation) (URL.pathname microLocation)
                 (URL.search microLocation) (URL.hash microLocation) []))
  end.

Definition commonHandle (value : Value) (methodName : string) : M (option Value) :=
  microLocation <- getLocation ;;
  targetLocation <- resolve value (Some (MicroLocation.url microLocation)) ;;
  if URL.origin targetLocation =? MicroLocation.origin microLocation then
    setMicroPathResult <-
      encode (MicroLocation.appName microLocation) targetLocation ;;
    shadowLocation <- getShadow ;;
    if (URL.pathname targetLocation =? ShadowLocation.pathname shadowLocation)
       && (URL.search targetLocation =? ShadowLocation.search shadowLocation)
    then
      (if negb (URL.hash targetLocation =? ShadowLocation.hash shadowLocation)
       then history methodName (fullPath setMicroPathResult)
       else ret tt) ;;
      (if truthy (URL.hash targetLocation)
       then dispatchPurePopStateEvent
       else rawReload None) ;;
      ret None
    else if attach2Hash setMicroPathResult then
      history methodName (fullPath setMicroPathResult) ;;
      rawReload None ;;
      ret None
    else
      ret (Some (VString (fullPath setMicroPathResult)))
  else
    ret (Some value).

Definition createLocationMethod (locationMethodName : string) (value : Value) : M unit :=
  formattedValue <-
    commonHandle value
      (if locationMethodName =? "assign" then "pushState" else "replaceState") ;;
  match formattedValue with
  | Some v =>
      if truthy_value formattedValue
      then call (LocationCall locationMethodName v)
      else ret tt
  | None => ret tt
  end.

Definition assign : Value -> M unit := createLocationMethod "assign".

Definition replace : Value -> M unit := createLocationMethod "replace".

Definition reload (forcedReload : option bool) : M unit := rawReload forcedReload.

Definition get_href : M string :=
  s <- getShadow ;; ret (ShadowLocation.href s).

Definition set_href (value : Value) : M unit :=
  formattedValue <- commonHandle value "pushState" ;;
  match formattedValue with
  | Some v =>
      if truthy_value formattedValue then call (LocationHref v) else ret tt
  | None => ret tt
  end.

Definition get_pathname : M string :=
  s <- getShadow ;; ret (ShadowLocation.pathname s).

Definition set_pathname (value : string) : M unit :=
  microLocation <- getLocation ;;
  shadowLocation <- getShadow ;;
  let targetPath :=
    replace_leading "/" ("/" ++ value)
    ++ ShadowLocation.search shadowLocation
    ++ ShadowLocation.hash shadowLocation in
  targetLocation <-
    resolve (VString targetPath) (Some (MicroLocation.url microLocation)) ;;
  if (URL.pathname targetLocation =? ShadowLocation.pathname shadowLocation)
     && truthy (ShadowLocation.hash shadowLocation)
  then dispatchPurePopStateEvent
  else
    let methodName :=
      if URL.pathname targetLocation =? ShadowLocation.pathname shadowLocation
      then "replaceState" else "pushState" in
    r <- encode (MicroLocation.appName microLocation) targetLocation ;;
    history methodName (fullPath r) ;;
    rawReload None.

Definition get_search : M string :=
  s <- getShadow ;; ret (ShadowLocation.search s).

Definition set_search (value : string) : M unit :=
  microLocation <- getLocation ;;
  shadowLocation <- getShadow ;;
  let targetPath :=
    ShadowLocation.pathname shadowLocation
    ++ replace_leading "?" ("?" ++ value)
    ++ ShadowLocation.hash shadowLocation in
  targetLocation <-
    resolve (VString targetPath) (Some (MicroLocation.url microLocation)) ;;
  if (URL.search targetLocation =? ShadowLocation.search shadowLocation)
     && truthy (ShadowLocation.hash shadowLocation)
  then dispatchPurePopStateEvent
  else
    let methodName :=
      if URL.search targetLocation =? ShadowLocation.search shadowLocation
      then "replaceState" else "pushState" in
    r <- encode (MicroLocation.appName microLocation) targetLocation ;;
    history methodName (fullPath r) ;;
    rawReload None.

Definition get_hash : M string :=
  s <- getShadow ;; ret (ShadowLocation.hash s).

Definition set_hash (value : string) : M unit :=
  microLocation <- getLocation ;;
  shadowLocation <- getShadow ;;
  let targetPath :=
    ShadowLocation.pathname shadowLocation
    ++ ShadowLocation.search shadowLocation
    ++ replace_leading "#" ("#" ++ value) in
  targetLocation <-
    resolve (VString targetPath) (Some (MicroLocation.url microLocation)) ;;
  if negb (URL.hash targetLocation =? ShadowLocation.hash shadowLocation) then
    r <- encode (MicroLocation.appName microLocation) targetLocation ;;
    history "pushState" (fullPath r) ;;
    dispatchPurePopStateEvent
  else ret tt.

(** ** updateLocation *)

Definition locationKeys : list Key.t :=
  [Key.hash; Key.host; Key.hostname; Key.href; Key.password;
   Key.pathname; Key.port; Key.protocol; Key.search].

Definition shadowLocationKeys : list Key.t :=
  [Key.href; Key.pathname; Key.search; Key.hash].

(** [microLocation.shadowLocation[key] = v] *)
Definition store_shadow (key : Key.t) (v : string) : M unit :=
  m <- getLocation ;;
  putLocation
    (MicroLocation.with_shadowLocation
       (ShadowLocation.set key v (MicroLocation.shadowLocation m)) m).

(** [microLocation[key] = v].  href, pathname, search and hash are the
    accessors defined above, so a store runs their setter; origin has a
    getter only, and a store to it throws in a module; for the other five
    the store runs the setter of the URL prototype on the facade. *)
Definition store_own (key : Key.t) (v : string) : M unit :=
  match key with
  | Key.href => set_href (VString v)
  | Key.pathname => set_pathname v
  | Key.search => set_search v
  | Key.hash => set_hash v
  | Key.origin => throw
  | Key.host | Key.hostname | Key.password | Key.port | Key.protocol =>
      m <- getLocation ;;
      putLocation
        (MicroLocation.with_self (URL_set key v (MicroLocation.self m)) m)
  end.

(** The body of the loop, for one key. *)
Definition copy_key (newLocation : URL.t) (key : Key.t) : M unit :=
  if includes shadowLocationKeys key
  then store_shadow key (URL_get key newLocation)
  else store_own key (URL_get key newLocation).

Fixpoint for_of (keys : list Key.t) (body : Key.t -> M unit) : M unit :=
  match keys with
  | [] => ret tt
  | key :: rest => body key ;; for_of rest body
  end.

Definition updateLocation (path base : string) : M unit :=
  newLocation <- resolve (VString path) (Some base) ;;
  for_of locationKeys (copy_key newLocation).

(** ** What a micro app can do with its location *)

Inductive Op :=
| CommonHandle (value : Value) (methodName : string)
| Assign (value : Value)
| Replace (value : Value)
| ReloadPage (forcedReload : option bool)
| SetHref (value : Value)
| SetPathname (value : string)
| SetSearch (value : string)
| SetHash (value : string)
| UpdateLocation (path base : string).

Definition run (op : Op) : M unit :=
  match op with
  | CommonHandle value methodName => commonHandle value methodName ;; ret tt
  | Assign value => assign value
  | Replace value => replace value
  | ReloadPage forcedReload => reload forcedReload
  | SetHref value => set_href value
  | SetPathname value => set_pathname value
  | SetSearch value => set_search value
  | SetHash value => set_hash value
  | UpdateLocation path base => updateLocation path base
  end.

(** Every operation but [updateLocation] is a navigation write. *)
Definition is_navigation (op : Op) : bool :=
  match op with
  | UpdateLocation _ _ => false
  | _ => true
  end.

(** A sub-application runs operations one after the other; one that
    throws leaves the world as it was when it threw. *)
Definition run_all (ops : list Op) (w : World) : World :=
  fold_left (fun w op => world_after (run op w)) ops w.

End Location.

(** [w] with the calls [es] made after those it holds. *)
Definition after_calls (w : World) (es : list Event) : World :=
  {| location := location w; calls := calls w ++ es |}.

Definition is_commit (e : Event) : bool :=
  match e with
  | HistoryCall _ _ => true
  | _ => false
  end.

Definition is_reload_or_notification (e : Event) : bool :=
  match e with
  | Reload _ | PurePopState => true
  | _ => false
  end.

(** No history call comes after a reload or a notification. *)
Fixpoint commits_first (es : list Event) : bool :=
  match es with
  | [] => true
  | e :: rest =>
      (if is_reload_or_notification e
       then negb (existsb is_commit rest) else true)
      && commits_first rest
  end.


(** Calls that hand the navigation over to the host's own location. *)
Definition is_raw_navigation (e : Event) : bool :=
  match e with
  | LocationCall _ _ | LocationHref _ => true
  | _ => false
  end.

Definition is_reload (e : Event) : bool :=
  match e with
  | Reload _ => true
  | _ => false
  end.

(** The calls of a navigation dealt with inside the page: none, a
    notification or a reload alone, or a history call with an allowed
    method followed by one of the two. *)
Definition handled (allowed : string -> bool) (es : list Event) : bool :=
  match es with
  | [] | [PurePopState] | [Reload None] => true
  | [HistoryCall m _; PurePopState] | [HistoryCall m _; Reload None] => allowed m
  | _ => false
  end.

(** The lists of calls each operation can make. *)
Definition op_calls (op : Op) (es : list Event) : bool :=
  match op with
  | CommonHandle _ methodName => handled (String.eqb methodName) es
  | Assign _ =>
      handled (String.eqb "pushState") es
      || match es with [LocationCall n _] => n =? "assign" | _ => false end
  | Replace _ =>
      handled (String.eqb "replaceState") es
      || match es with [LocationCall n _] => n =? "replace" | _ => false end
  | SetHref _ =>
      handled (String.eqb "pushState") es
      || match es with [LocationHref _] => true | _ => false end
  | ReloadPage forcedReload =>
      match es with [Reload _] => true | _ => false end
  | SetPathname _ | SetSearch _ =>
      match es with
      | [] | [PurePopState] => true
      | [HistoryCall m _; Reload None] => (m =? "pushState") || (m =? "replaceState")
      | _ => false
      end
  | SetHash _ =>
      match es with
      | [] => true
      | [HistoryCall m _; PurePopState] => m =? "pushState"
      | _ => false
      end
  | UpdateLocation _ _ =>
      match es with [] => true | _ => false end
  end.

(** The four properties of the shadow are those of [u]. *)
Definition mirrors (u : URL.t) (m : MicroLocation.t) : bool :=
  let s := MicroLocation.shadowLocation m in
  (ShadowLocation.href s =? URL.href u)
  && (ShadowLocation.pathname s =? URL.pathname u)
  && (ShadowLocation.search s =? URL.search u)
  && (ShadowLocation.hash s =? URL.hash u).

(** The facade after [updateLocation] has copied [n]: the five stores on
    the URL object in the order of [locationKeys], and the shadow. *)
Definition copied `{Env} (n : URL.t) (m : MicroLocation.t) : MicroLocation.t :=
  MicroLocation.mk
    (MicroLocation.appName m) (MicroLocation.url m)
    (URL_set Key.protocol (URL.protocol n)
       (URL_set Key.port (URL.port n)
          (URL_set Key.password (URL.password n)
             (URL_set Key.hostname (URL.hostname n)
                (URL_set Key.host (URL.host n) (MicroLocation.self m))))))
    (ShadowLocation.mk (URL.href n) (URL.pathname n) (URL.search n) (URL.hash n)
       (ShadowLocation.expando (MicroLocation.shadowLocation m))).

(** ** A host to run the code on

    A small resolver for addresses of the shapes [https://host/path?q#h] and
    [/path?q#h], and a path codec that keys the encoded path by the app's
    name.  They stand for the browser and for router/core.ts in the
    executions below, and nowhere else. *)
Module Sample.

Fixpoint break_at (c : ascii) (s : string) : string * string :=
  match s with
  | EmptyString => ("", "")
  | String a s' =>
      if Ascii.eqb a c then ("", s)
      else let (l, r) := break_at c s' in (String a l, r)
  end.

Definition tail (s : string) : string :=
  match s with
  | EmptyString => ""
  | String _ s' => s'
  end.

Definition scheme : string := "https://".

Definition build (authority rest : string) : URL.t :=
  let (pq, frag) := break_at "#" rest in
  let (path, query) := break_at "?" pq in
  let path := if path =? "" then "/" else path in
  let (hostname, port) := break_at ":" authority in
  URL.mk (scheme ++ authority ++ path ++ query ++ frag)
         (scheme ++ authority) "https:" "" authority hostname (tail port)
         path (if query =? "?" then "" else query)
         (if frag =? "#" then "" else frag).

Definition absolute (s : string) : option URL.t :=
  if prefix scheme s then
    let (authority, rest) :=
      break_at "/" (substring 8 (String.length s - 8) s) in
    if authority =? "" then None else Some (build authority rest)
  else None.

Definition createURL (value : Value) (base : option string) : option URL.t :=
  let s := match value with VString s => s | VURL u => URL.href u end in
  match absolute s, base with
  | Some u, _ => Some u
  | None, Some b =>
      match absolute b with
      | Some bu =>
          if prefix "/" s then Some (build (URL.host bu) s) else None
      | None => None
      end
  | None, None => None
  end.

Definition setMicroPathToURL (hashMode : bool) (made : list Event)
    (appName : string) (target : URL.t) : HandleMicroPathResult :=
  {| fullPath :=
       (if hashMode then "/#/?" else "/?") ++ appName ++ "="
       ++ URL.pathname target ++ URL.search target ++ URL.hash target;
     attach2Hash := hashMode |}.

(** The https address [u] moved to another host and port; 443 is the
    port of https and is not kept. *)
Definition moved (hostname port : string) (u : URL.t) : URL.t :=
  let port := if port =? "443" then "" else port in
  let host := if port =? "" then hostname else hostname ++ ":" ++ port in
  URL.mk (scheme ++ host ++ URL.pathname u ++ URL.search u ++ URL.hash u)
         (scheme ++ host) (URL.protocol u) (URL.password u) host hostname port
         (URL.pathname u) (URL.search u) (URL.hash u).

(** The setters of a URL object, for the https addresses of this
    resolver: an empty host is refused, a host without a port keeps the
    port, and the scheme stays https. *)
Definition URL_set (key : Key.t) (v : string) (u : URL.t) : URL.t :=
  match key with
  | Key.host =>
      let (hostname, port) := break_at ":" v in
      if hostname =? "" then u
      else moved hostname (if port =? "" then URL.port u else tail port) u
  | Key.hostname => if v =? "" then u else moved v (URL.port u) u
  | Key.port => moved (URL.hostname u) v u
  | Key.password =>
      URL.mk (URL.href u) (URL.origin u) (URL.protocol u) v (URL.host u)
             (URL.hostname u) (URL.port u) (URL.pathname u) (URL.search u)
             (URL.hash u)
  | _ => u
  end.

Definition env (hashMode : bool) : Env :=
  Build_Env createURL (setMicroPathToURL hashMode) URL_set.

(** The app "shop" created at https://app.example/, with the shadow on the
    given route. *)
Definition world (pathname search hash : string) : World :=
  {| location :=
       MicroLocation.mk "shop" "https://app.example/"
         (URL.mk "https://app.example/" "https://app.example" "https:" ""
            "app.example" "app.example" "" "/" "" "")
         (ShadowLocation.mk ("https://app.example" ++ pathname ++ search ++ hash)
            pathname search hash []);
     calls := [] |}.

End Sample.

(** ** The sample host at work *)

Example sample_createMicroLocation :
  @createMicroLocation (Sample.env false) "shop" "https://app.example/x?q=1#y"
  = Some (MicroLocation.mk "shop" "https://app.example/x?q=1#y"
            (URL.mk "https://app.example/x?q=1#y" "https://app.example" "https:" ""
               "app.example" "app.example" "" "/x" "?q=1" "#y")
            (ShadowLocation.mk "https://app.example/x?q=1#y" "/x" "?q=1" "#y" [])).
Proof. reflexivity. Qed.

Example sample_cross_origin :
  Sample.createURL (VString "https://other-origin.example:8080/p") (Some "https://app.example/")
  = Some (URL.mk "https://other-origin.example:8080/p" "https://other-origin.example:8080"
            "https:" "" "other-origin.example:8080" "other-origin.example" "8080" "/p" "" "").
Proof. reflexivity. Qed.

(** ** Tactics and helper lemmas *)

Lemma eqb_neq_false (a b : string) : a <> b -> (a =? b) = false.
Proof. intros Hne. apply String.eqb_neq. exact Hne. Qed.

Lemma truthy_nonempty (s : string) : s <> "" -> truthy s = true.
Proof. intros Hne. unfold truthy. rewrite (eqb_neq_false _ _ Hne). reflexivity. Qed.

(** Unfold an operation down to the monad's primitives. *)
Ltac unfold_ops :=
  unfold run, assign, replace, reload, createLocationMethod, set_href,
    set_pathname, set_search, set_hash, commonHandle, resolve, encode,
    history, dispatchPurePopStateEvent, rawReload, getLocation, getShadow,
    bind, ret, throw.

(** Compare worlds built by successive calls: the lists of calls are
    associated to the right. *)
Ltac tidy_calls :=
  unfold after_calls, call; simpl; rewrite <- ?app_assoc; simpl.

(** ** Cross-origin targets *)

(** C1. When the target resolves to an origin other than the micro app's,
    [commonHandle] returns the value it was given and leaves the world as
    it was: no history call, no reload, no notification.  [assign],
    [replace] and the href setter then hand that value to the matching
    method of the host's location (any value that is not the empty
    string). *)
Theorem cross_origin_passthrough `{Env} (w : World) (value : Value)
    (methodName : string) (target : URL.t) :
  createURL value (Some (MicroLocation.url (location w))) = Some target ->
  URL.origin target <> MicroLocation.origin (location w) ->
  commonHandle value methodName w = Returned (Some value) w
  /\ assign value w =
       Returned tt (if truthy_value (Some value)
                    then after_calls w [LocationCall "assign" value] else w)
  /\ replace value w =
       Returned tt (if truthy_value (Some value)
                    then after_calls w [LocationCall "replace" value] else w)
  /\ set_href value w =
       Returned tt (if truthy_value (Some value)
                    then after_calls w [LocationHref value] else w).
Proof.
  intros Hres Hne.
  assert (Hc : forall m, commonHandle value m w = Returned (Some value) w).
  { intros m. unfold_ops. rewrite Hres.
    rewrite (eqb_neq_false _ _ Hne). reflexivity. }
  split; [apply Hc|].
  unfold assign, replace, createLocationMethod, set_href, bind.
  rewrite !Hc.
  destruct (truthy_value (Some value)); repeat split; reflexivity.
Qed.

Lemma cross_origin_passthrough_witness :
  let w := Sample.world "/x" "" "" in
  let value := VString "https://other-origin.example/p" in
  @commonHandle (Sample.env false) value "pushState" w = Returned (Some value) w
  /\ @assign (Sample.env false) value w =
       Returned tt (after_calls w [LocationCall "assign" value]).
Proof.
  intros w value.
  destruct (@cross_origin_passthrough (Sample.env false) w value "pushState"
              (URL.mk "https://other-origin.example/p" "https://other-origin.example"
                 "https:" "" "other-origin.example" "other-origin.example" "" "/p" "" ""))
    as (Hc & Ha & _).
  - reflexivity.
  - simpl. discriminate.
  - split; [exact Hc | exact Ha].
Defined.

(** ** Same-origin targets: the hash alone changes *)

(** C2. Same origin, pathname and search as in the shadow, a hash that is
    not empty and differs from the shadow's: [commonHandle] makes one
    history call with the method it was given and the encoded full path,
    then dispatches one notification, never reloads, and returns
    undefined.  [assign] and the href setter pass pushState, [replace]
    passes replaceState, and none of them touches the host's location
    afterwards. *)
Theorem hash_change_commits_and_notifies `{Env} (w : World) (value : Value)
    (methodName : string) (target : URL.t) :
  let m := location w in
  let shadow := MicroLocation.shadowLocation m in
  let path := fullPath (setMicroPathToURL (calls w) (MicroLocation.appName m) target) in
  createURL value (Some (MicroLocation.url m)) = Some target ->
  URL.origin target = MicroLocation.origin m ->
  URL.pathname target = ShadowLocation.pathname shadow ->
  URL.search target = ShadowLocation.search shadow ->
  URL.hash target <> "" ->
  URL.hash target <> ShadowLocation.hash shadow ->
  commonHandle value methodName w =
    Returned None (after_calls w [HistoryCall methodName path; PurePopState])
  /\ assign value w =
       Returned tt (after_calls w [HistoryCall "pushState" path; PurePopState])
  /\ set_href value w =
       Returned tt (after_calls w [HistoryCall "pushState" path; PurePopState])
  /\ replace value w =
       Returned tt (after_calls w [HistoryCall "replaceState" path; PurePopState]).
Proof.
  intros m shadow path Hres Ho Hp Hs Hne Hd.
  assert (Hc : forall mn, commonHandle value mn w =
            Returned None (after_calls w [HistoryCall mn path; PurePopState])).
  { intros mn. unfold_ops. fold m. rewrite Hres, Ho, String.eqb_refl.
    simpl. fold m shadow. rewrite Hp, Hs, !String.eqb_refl. simpl.
    rewrite (eqb_neq_false _ _ Hd). simpl.
    rewrite (truthy_nonempty _ Hne). tidy_calls. reflexivity. }
  split; [apply Hc|].
  unfold assign, replace, createLocationMethod, set_href, bind.
  rewrite !Hc. simpl. repeat split; reflexivity.
Qed.

Lemma hash_change_commits_and_notifies_witness :
  let w := Sample.world "/x" "?q=1" "#a" in
  @commonHandle (Sample.env false) (VString "/x?q=1#b") "replaceState" w =
    Returned None
      (after_calls w [HistoryCall "replaceState" "/?shop=/x?q=1#b"; PurePopState])
  /\ @assign (Sample.env false) (VString "/x?q=1#b") w =
       Returned tt
         (after_calls w [HistoryCall "pushState" "/?shop=/x?q=1#b"; PurePopState]).
Proof.
  intros w.
  destruct (@hash_change_commits_and_notifies (Sample.env false) w
              (VString "/x?q=1#b") "replaceState"
              (URL.mk "https://app.example/x?q=1#b" "https://app.example"
                 "https:" "" "app.example" "app.example" "" "/x" "?q=1" "#b"))
    as (Hc & Ha & _); try reflexivity; try (simpl; discriminate).
  split; [exact Hc | exact Ha].
Defined.

(** C3. Same origin, pathname and search as in the shadow, an empty hash
    while the shadow's is not: [commonHandle] first makes the history
    call with the encoded full path, then reloads once, dispatches no
    notification, and returns undefined. *)
Theorem hash_cleared_commits_then_reloads `{Env} (w : World) (value : Value)
    (methodName : string) (target : URL.t) :
  let m := location w in
  let shadow := MicroLocation.shadowLocation m in
  let path := fullPath (setMicroPathToURL (calls w) (MicroLocation.appName m) target) in
  createURL value (Some (MicroLocation.url m)) = Some target ->
  URL.origin target = MicroLocation.origin m ->
  URL.pathname target = ShadowLocation.pathname shadow ->
  URL.search target = ShadowLocation.search shadow ->
  URL.hash target = "" ->
  ShadowLocation.hash shadow <> "" ->
  commonHandle value methodName w =
    Returned None (after_calls w [HistoryCall methodName path; Reload None]).
Proof.
  intros m shadow path Hres Ho Hp Hs He Hne.
  unfold_ops. fold m. rewrite Hres, Ho, String.eqb_refl.
  simpl. fold m shadow. rewrite Hp, Hs, !String.eqb_refl. simpl.
  rewrite He.
  assert (Hd : "" <> ShadowLocation.hash shadow) by congruence.
  rewrite (eqb_neq_false _ _ Hd). simpl.
  tidy_calls. subst path. reflexivity.
Qed.

Lemma hash_cleared_commits_then_reloads_witness :
  let w := Sample.world "/x" "" "#a" in
  @commonHandle (Sample.env false) (VString "/x") "pushState" w =
    Returned None
      (after_calls w [HistoryCall "pushState" "/?shop=/x"; Reload None]).
Proof.
  intros w.
  apply (@hash_cleared_commits_then_reloads (Sample.env false) w
           (VString "/x") "pushState"
           (URL.mk "https://app.example/x" "https://app.example"
              "https:" "" "app.example" "app.example" "" "/x" "" ""));
    try reflexivity.
  simpl. discriminate.
Defined.

(** ** Same-origin targets: the pathname or the search changes *)

(** C4. Same origin, and a pathname or a search that differs from the
    shadow's: when the codec reports attach2Hash, [commonHandle] makes the
    history call with the method it was given, then reloads, and returns
    undefined; otherwise it returns the encoded full path and makes no
    call at all. *)
Theorem path_change_by_codec_mode `{Env} (w : World) (value : Value)
    (methodName : string) (target : URL.t) :
  let m := location w in
  let shadow := MicroLocation.shadowLocation m in
  let result := setMicroPathToURL (calls w) (MicroLocation.appName m) target in
  createURL value (Some (MicroLocation.url m)) = Some target ->
  URL.origin target = MicroLocation.origin m ->
  URL.pathname target <> ShadowLocation.pathname shadow
    \/ URL.search target <> ShadowLocation.search shadow ->
  commonHandle value methodName w =
    if attach2Hash result
    then Returned None
           (after_calls w [HistoryCall methodName (fullPath result); Reload None])
    else Returned (Some (VString (fullPath result))) w.
Proof.
  intros m shadow result Hres Ho Hd.
  unfold_ops. fold m. rewrite Hres, Ho, String.eqb_refl.
  simpl. fold m shadow.
  assert (Hf : (URL.pathname target =? ShadowLocation.pathname shadow)
               && (URL.search target =? ShadowLocation.search shadow) = false).
  { destruct Hd as [Hd | Hd]; rewrite (eqb_neq_false _ _ Hd).
    - reflexivity.
    - apply andb_false_r. }
  rewrite Hf. fold result.
  destruct (attach2Hash result); [|reflexivity].
  tidy_calls. reflexivity.
Qed.

Lemma path_change_by_codec_mode_witness :
  let w := Sample.world "/x" "" "#a" in
  @commonHandle (Sample.env true) (VString "/newpath") "replaceState" w =
    Returned None
      (after_calls w [HistoryCall "replaceState" "/#/?shop=/newpath"; Reload None])
  /\ @commonHandle (Sample.env false) (VString "/x?page=2#a") "pushState" w =
       Returned (Some (VString "/?shop=/x?page=2#a")) w.
Proof.
  intros w. split.
  - apply (@path_change_by_codec_mode (Sample.env true) w
             (VString "/newpath") "replaceState"
             (URL.mk "https://app.example/newpath" "https://app.example"
                "https:" "" "app.example" "app.example" "" "/newpath" "" "")).
    + reflexivity.
    + reflexivity.
    + left. simpl. discriminate.
  - apply (@path_change_by_codec_mode (Sample.env false) w
             (VString "/x?page=2#a") "pushState"
             (URL.mk "https://app.example/x?page=2#a" "https://app.example"
                "https:" "" "app.example" "app.example" "" "/x" "?page=2" "#a")).
    + reflexivity.
    + reflexivity.
    + right. simpl. discriminate.
Defined.

(** ** The setters of hash and pathname *)

Lemma replace_leading_cons (c : ascii) (s : string) :
  replace_leading c (String c "" ++ s) = String c (strip_leading c s).
Proof. simpl. rewrite Ascii.eqb_refl. reflexivity. Qed.

(** C6. A write to hash resolves the shadow's pathname and search followed
    by one '#' and the value without its leading '#'s.  When the resolved
    hash differs from the shadow's, the setter makes one pushState call
    with the encoded path and dispatches one notification, and does not
    reload; when it is the same, the setter makes no call at all. *)
Theorem set_hash_pushes_and_notifies `{Env} (w : World) (value : string)
    (target : URL.t) :
  let m := location w in
  let shadow := MicroLocation.shadowLocation m in
  let path := fullPath (setMicroPathToURL (calls w) (MicroLocation.appName m) target) in
  createURL
    (VString (ShadowLocation.pathname shadow ++ ShadowLocation.search shadow
              ++ String "#" (strip_leading "#" value)))
    (Some (MicroLocation.url m)) = Some target ->
  (URL.hash target <> ShadowLocation.hash shadow ->
   set_hash value w =
     Returned tt (after_calls w [HistoryCall "pushState" path; PurePopState]))
  /\ (URL.hash target = ShadowLocation.hash shadow ->
      set_hash value w = Returned tt w).
Proof.
  intros m shadow path Hres.
  unfold set_hash, resolve, getLocation, getShadow, bind.
  fold m shadow. rewrite replace_leading_cons, Hres.
  change (ret target w) with (Returned target w). cbv beta iota.
  split; intros Hh.
  - rewrite (eqb_neq_false _ _ Hh). unfold_ops. tidy_calls. reflexivity.
  - rewrite Hh, String.eqb_refl. reflexivity.
Qed.

Lemma set_hash_pushes_and_notifies_witness :
  let w := Sample.world "/x" "" "" in
  @set_hash (Sample.env false) "y" w =
    Returned tt (after_calls w [HistoryCall "pushState" "/?shop=/x#y"; PurePopState])
  /\ @set_hash (Sample.env false) "#a" (Sample.world "/x" "" "#a") =
       Returned tt (Sample.world "/x" "" "#a").
Proof.
  intros w. split.
  - apply (@set_hash_pushes_and_notifies (Sample.env false) w "y"
             (URL.mk "https://app.example/x#y" "https://app.example"
                "https:" "" "app.example" "app.example" "" "/x" "" "#y")).
    + reflexivity.
    + simpl. discriminate.
  - apply (@set_hash_pushes_and_notifies (Sample.env false)
             (Sample.world "/x" "" "#a") "#a"
             (URL.mk "https://app.example/x#a" "https://app.example"
                "https:" "" "app.example" "app.example" "" "/x" "" "#a")).
    + reflexivity.
    + reflexivity.
Defined.

(** C7. A write to pathname resolves one '/' and the value without its
    leading '/'s, followed by the shadow's search and hash.  When the
    resolved pathname is the shadow's and the shadow's hash is not empty,
    the setter dispatches one notification and makes no other call.
    Otherwise it makes one history call with the encoded path, replaceState
    when the resolved pathname is the shadow's and pushState when it is
    not, and then reloads. *)
Theorem set_pathname_notifies_or_reloads `{Env} (w : World) (value : string)
    (target : URL.t) :
  let m := location w in
  let shadow := MicroLocation.shadowLocation m in
  let path := fullPath (setMicroPathToURL (calls w) (MicroLocation.appName m) target) in
  createURL
    (VString (String "/" (strip_leading "/" value)
              ++ ShadowLocation.search shadow ++ ShadowLocation.hash shadow))
    (Some (MicroLocation.url m)) = Some target ->
  (URL.pathname target = ShadowLocation.pathname shadow ->
   ShadowLocation.hash shadow <> "" ->
   set_pathname value w = Returned tt (after_calls w [PurePopState]))
  /\ (URL.pathname target = ShadowLocation.pathname shadow ->
      ShadowLocation.hash shadow = "" ->
      set_pathname value w =
        Returned tt (after_calls w [HistoryCall "replaceState" path; Reload None]))
  /\ (URL.pathname target <> ShadowLocation.pathname shadow ->
      set_pathname value w =
        Returned tt (after_calls w [HistoryCall "pushState" path; Reload None])).
Proof.
  intros m shadow path Hres.
  unfold set_pathname, resolve, getLocation, getShadow, bind.
  fold m shadow. rewrite replace_leading_cons, Hres.
  change (ret target w) with (Returned target w). cbv beta iota.
  split; [|split].
  - intros Hp Hh. rewrite Hp, String.eqb_refl, (truthy_nonempty _ Hh).
    reflexivity.
  - intros Hp Hh. rewrite Hp, String.eqb_refl, Hh. simpl.
    unfold_ops. tidy_calls. reflexivity.
  - intros Hp. rewrite (eqb_neq_false _ _ Hp). simpl.
    unfold_ops. tidy_calls. reflexivity.
Qed.

Lemma set_pathname_notifies_or_reloads_witness :
  let w := Sample.world "/x" "" "#y" in
  @set_pathname (Sample.env false) "x" w = Returned tt (after_calls w [PurePopState])
  /\ @set_pathname (Sample.env false) "/z" w =
       Returned tt (after_calls w [HistoryCall "pushState" "/?shop=/z#y"; Reload None])
  /\ @set_pathname (Sample.env false) "/x" (Sample.world "/x" "?q" "") =
       Returned tt (after_calls (Sample.world "/x" "?q" "")
                      [HistoryCall "replaceState" "/?shop=/x?q"; Reload None]).
Proof.
  intros w. split; [|split].
  - apply (@set_pathname_notifies_or_reloads (Sample.env false) w "x"
             (URL.mk "https://app.example/x#y" "https://app.example"
                "https:" "" "app.example" "app.example" "" "/x" "" "#y")).
    + reflexivity.
    + reflexivity.
    + simpl. discriminate.
  - apply (@set_pathname_notifies_or_reloads (Sample.env false) w "/z"
             (URL.mk "https://app.example/z#y" "https://app.example"
                "https:" "" "app.example" "app.example" "" "/z" "" "#y")).
    + reflexivity.
    + simpl. discriminate.
  - apply (@set_pathname_notifies_or_reloads (Sample.env false)
             (Sample.world "/x" "?q" "") "/x"
             (URL.mk "https://app.example/x?q" "https://app.example"
                "https:" "" "app.example" "app.example" "" "/x" "?q" "")).
    + reflexivity.
    + reflexivity.
    + reflexivity.
Defined.

(** ** Leading punctuation *)








Example pathname_slashes :
  replace_leading "/" ("/" ++ "//a") = "/a"
  /\ replace_leading "/" ("/" ++ "/a") = "/a"
  /\ replace_leading "/" ("/" ++ "a") = "/a".
Proof. repeat split; reflexivity. Qed.

Example hash_marks :
  @set_hash (Sample.env false) "##a" (Sample.world "/x" "" "")
  = Returned tt (after_calls (Sample.world "/x" "" "")
                   [HistoryCall "pushState" "/?shop=/x#a"; PurePopState]).
Proof. reflexivity. Qed.

(** ** Order of the calls *)

Lemma skipn_own_length (l es : list Event) : skipn (length l) (l ++ es) = es.
Proof. induction l as [|a l IH]; simpl; [reflexivity | exact IH]. Qed.

Lemma existsb_nth_error (p : Event -> bool) (es : list Event) (i : nat) (e : Event) :
  nth_error es i = Some e -> p e = true -> existsb p es = true.
Proof.
  revert i. induction es as [|a es IH]; intros [|i] Hn Hp; simpl in *;
    try discriminate.
  - injection Hn as ->. rewrite Hp. reflexivity.
  - rewrite (IH i Hn Hp). apply orb_true_r.
Qed.

Lemma commits_first_ordered (es : list Event) :
  commits_first es = true ->
  forall i j e1 e2,
    nth_error es i = Some e1 -> is_commit e1 = true ->
    nth_error es j = Some e2 -> is_reload_or_notification e2 = true ->
    i < j.
Proof.
  induction es as [|a es IH]; intros Hc i j e1 e2 Hi H1 Hj H2.
  - destruct i; discriminate.
  - simpl in Hc. apply andb_true_iff in Hc as [Ha Hrest].
    destruct j as [|j].
    + simpl in Hj. injection Hj as ->. rewrite H2 in Ha.
      destruct i as [|i]; simpl in Hi.
      * injection Hi as ->. destruct e1; discriminate.
      * rewrite (existsb_nth_error _ _ _ _ Hi H1) in Ha. discriminate.
    + destruct i as [|i]; [lia|].
      simpl in Hi, Hj. specialize (IH Hrest i j e1 e2 Hi H1 Hj H2). lia.
Qed.

(** Name the calls an execution has added: none, or those appended to
    the list the world held. *)
Ltac pick_calls :=
  first
    [ exists []; rewrite app_nil_r; split; [reflexivity | split; reflexivity]
    | eexists;
      (split; [rewrite <- ?app_assoc; simpl; reflexivity | split; reflexivity]) ].

Lemma commonHandle_calls `{Env} (value : Value) (methodName : string) (w : World) :
  exists es,
    calls (world_after (commonHandle value methodName w)) = (calls w ++ es)%list
    /\ commits_first es = true
    /\ location (world_after (commonHandle value methodName w)) = location w.
Proof.
  unfold_ops.
  destruct (createURL value (Some (MicroLocation.url (location w)))) as [t|];
    simpl; [|pick_calls].
  destruct (URL.origin t =? MicroLocation.origin (location w)); simpl;
    [|pick_calls].
  destruct ((URL.pathname t =? _) && (URL.search t =? _)); simpl.
  - destruct (URL.hash t =? _); simpl; destruct (truthy (URL.hash t)); simpl;
      pick_calls.
  - destruct (attach2Hash _); simpl; pick_calls.
Qed.

Lemma commits_first_snoc (es : list Event) (e : Event) :
  is_commit e = false -> commits_first es = true ->
  commits_first (es ++ [e]) = true.
Proof.
  intros He. induction es as [|a es IH]; simpl; intros Hc.
  - destruct (is_reload_or_notification e); reflexivity.
  - apply andb_true_iff in Hc as [Ha Hrest].
    rewrite (IH Hrest), andb_true_r.
    destruct (is_reload_or_notification a); [|reflexivity].
    rewrite existsb_app. simpl. rewrite He. simpl.
    rewrite orb_false_r. exact Ha.
Qed.

(** After [commonHandle], the caller hands the value to the host's
    location, or does nothing. *)
Lemma caller_calls `{Env} (value : Value) (methodName : string) (w : World)
    (last : Value -> Event) :
  (forall v, is_commit (last v) = false) ->
  let after :=
    bind (commonHandle value methodName)
      (fun formattedValue =>
         match formattedValue with
         | Some v => if truthy_value formattedValue then call (last v) else ret tt
         | None => ret tt
         end) w in
  exists es,
    calls (world_after after) = (calls w ++ es)%list
    /\ commits_first es = true
    /\ location (world_after after) = location w.
Proof.
  intros Hlast after. subst after. unfold bind.
  destruct (commonHandle_calls value methodName w) as (es & Hes & Hord & Hloc).
  destruct (commonHandle value methodName w) as [[v|] w'|w'];
    [destruct (truthy_value (Some v))| |]; simpl in *;
    try solve [exists es; auto].
  exists (es ++ [last v])%list. rewrite Hes, app_assoc. split; [reflexivity|].
  split; [|exact Hloc]. apply commits_first_snoc; auto.
Qed.

Lemma run_calls `{Env} (op : Op) (w : World) :
  exists es,
    calls (world_after (run op w)) = (calls w ++ es)%list
    /\ commits_first es = true
    /\ (is_navigation op = true -> location (world_after (run op w)) = location w).
Proof.
  destruct op as [value methodName|value|value|forced|value|value|value|value|path base].
  - destruct (commonHandle_calls value methodName w) as (es & Hes & Hord & Hloc).
    exists es. simpl. unfold bind, ret.
    destruct (commonHandle value methodName w); simpl in *; auto.
  - destruct (caller_calls value "pushState" w (LocationCall "assign"))
      as (es & Hes & Hord & Hloc); [reflexivity|].
    exists es. auto.
  - destruct (caller_calls value "replaceState" w (LocationCall "replace"))
      as (es & Hes & Hord & Hloc); [reflexivity|].
    exists es. auto.
  - exists [Reload forced]. simpl. auto.
  - destruct (caller_calls value "pushState" w LocationHref)
      as (es & Hes & Hord & Hloc); [reflexivity|].
    exists es. auto.
  - unfold_ops.
    destruct (createURL _ _) as [t|]; simpl; [|exists []; rewrite app_nil_r; auto].
    destruct (URL.pathname t =? _); simpl;
      [destruct (truthy _); simpl|];
      eexists; (split; [rewrite <- ?app_assoc; simpl; reflexivity | auto]).
  - unfold_ops.
    destruct (createURL _ _) as [t|]; simpl; [|exists []; rewrite app_nil_r; auto].
    destruct (URL.search t =? _); simpl;
      [destruct (truthy _); simpl|];
      eexists; (split; [rewrite <- ?app_assoc; simpl; reflexivity | auto]).
  - unfold_ops.
    destruct (createURL _ _) as [t|]; simpl; [|exists []; rewrite app_nil_r; auto].
    destruct (URL.hash t =? _); simpl.
    + exists []; rewrite app_nil_r; auto.
    + eexists; (split; [rewrite <- ?app_assoc; simpl; reflexivity | auto]).
  - exists []. rewrite app_nil_r. simpl. unfold updateLocation, resolve, bind.
    destruct (createURL _ _) as [t|]; simpl; repeat split; discriminate.
Qed.

(** C5. In every execution of [commonHandle], of assign, replace and
    reload, and of the four setters, a history call (pushState or
    replaceState) stands, among the calls the execution makes, before
    every reload and every notification. *)
Theorem commit_precedes_reload_and_notification `{Env} (op : Op) (w : World)
    (i j : nat) (e1 e2 : Event) :
  nth_error (emitted w (run op w)) i = Some e1 ->
  is_commit e1 = true ->
  nth_error (emitted w (run op w)) j = Some e2 ->
  is_reload_or_notification e2 = true ->
  i < j.
Proof.
  destruct (run_calls op w) as (es & Hes & Hord & _).
  unfold emitted. rewrite Hes, skipn_own_length.
  apply commits_first_ordered. exact Hord.
Qed.

Lemma commit_precedes_reload_and_notification_witness :
  let w := Sample.world "/x" "" "#y" in
  emitted w (@run (Sample.env false) (SetPathname "/z") w)
    = [HistoryCall "pushState" "/?shop=/z#y"; Reload None]
  /\ 0 < 1.
Proof.
  intros w. split; [reflexivity|].
  apply (@commit_precedes_reload_and_notification (Sample.env false)
           (SetPathname "/z") w 0 1
           (HistoryCall "pushState" "/?shop=/z#y") (Reload None));
    reflexivity.
Defined.

(** ** updateLocation *)

(** C9. [updateLocation] resolves the path against the base (and throws,
    with nothing written, when that fails).  It then visits nine keys, all
    different and none of them origin, and makes one store for each: href,
    pathname, search and hash are stored into [shadowLocation], by a plain
    store that runs no setter of the facade and makes no call on the host
    page; host, hostname, password, port and protocol are stored on the
    facade itself, in that order, each with the value the resolved URL has
    for it.  No store is made under origin: what the facade then shows as
    its origin is what the browser's setters of the other five leave. *)
Theorem updateLocation_copies_nine_fields `{Env} (path base : string) (w : World) :
  (length locationKeys = 9 /\ NoDup locationKeys /\ ~ In Key.origin locationKeys)
  /\ updateLocation path base w =
     match createURL (VString path) (Some base) with
     | None => Thrown w
     | Some newLocation =>
         let m := location w in
         Returned tt
           {| location :=
                MicroLocation.mk
                  (MicroLocation.appName m) (MicroLocation.url m)
                  (URL_set Key.protocol (URL.protocol newLocation)
                     (URL_set Key.port (URL.port newLocation)
                        (URL_set Key.password (URL.password newLocation)
                           (URL_set Key.hostname (URL.hostname newLocation)
                              (URL_set Key.host (URL.host newLocation)
                                 (MicroLocation.self m))))))
                  (ShadowLocation.mk
                     (URL.href newLocation) (URL.pathname newLocation)
                     (URL.search newLocation) (URL.hash newLocation)
                     (ShadowLocation.expando (MicroLocation.shadowLocation m)));
              calls := calls w |}
     end.
Proof.
  split.
  - split; [reflexivity|]. split.
    + unfold locationKeys.
      repeat (constructor; [simpl; intuition discriminate|]). constructor.
    + simpl. intuition discriminate.
  - unfold updateLocation, resolve, bind.
    destruct (createURL (VString path) (Some base)) as [newLocation|];
      reflexivity.
Qed.

Example updateLocation_sample :
  @updateLocation (Sample.env false) "/cart?id=7#top" "https://shop.example:8443/"
    (Sample.world "/x" "" "#y")
  = Returned tt
      {| location :=
           MicroLocation.mk "shop" "https://app.example/"
             (URL.mk "https://shop.example:8443/" "https://shop.example:8443"
                "https:" "" "shop.example:8443" "shop.example" "8443" "/" "" "")
             (ShadowLocation.mk "https://shop.example:8443/cart?id=7#top"
                "/cart" "?id=7" "#top" []);
         calls := [] |}.
Proof. reflexivity. Qed.

(** ** The shadow between two updates *)

Lemma run_all_location `{Env} (ops : list Op) (w : World) :
  forallb is_navigation ops = true ->
  location (run_all ops w) = location w.
Proof.
  revert w. induction ops as [|op ops IH]; intros w Hnav.
  - reflexivity.
  - simpl in Hnav. apply andb_true_iff in Hnav as [Hop Hops].
    change (run_all (op :: ops) w) with (run_all ops (world_after (run op w))).
    rewrite (IH _ Hops).
    destruct (run_calls op w) as (es & _ & _ & Hloc). exact (Hloc Hop).
Qed.

(** C10. [commonHandle], assign, replace, reload and the setters of href,
    pathname, search and hash store nothing into [shadowLocation], nor
    into any other field of the facade, whether they return or throw.  So
    after any sequence of them the four getters return what they returned
    before it; only [updateLocation] changes that. *)
Theorem navigation_keeps_shadow `{Env} (ops : list Op) (w : World) :
  forallb is_navigation ops = true ->
  let w' := run_all ops w in
  let shadow := MicroLocation.shadowLocation (location w) in
  location w' = location w
  /\ get_href w' = Returned (ShadowLocation.href shadow) w'
  /\ get_pathname w' = Returned (ShadowLocation.pathname shadow) w'
  /\ get_search w' = Returned (ShadowLocation.search shadow) w'
  /\ get_hash w' = Returned (ShadowLocation.hash shadow) w'.
Proof.
  intros Hnav w' shadow.
  assert (Hloc : location w' = location w) by (apply run_all_location; exact Hnav).
  split; [exact Hloc|].
  unfold get_href, get_pathname, get_search, get_hash, getShadow, bind, ret.
  rewrite Hloc. fold shadow. split; [|split; [|split]]; reflexivity.
Qed.

Lemma navigation_keeps_shadow_witness :
  let w := Sample.world "/x" "" "#y" in
  let w' :=
    @run_all (Sample.env false)
      [SetHash "z"; Assign (VString "/x#top"); SetPathname "/cart";
       CommonHandle (VString "/x") "replaceState"; SetHref (VString "/x?q=1")] w in
  calls w' =
    [HistoryCall "pushState" "/?shop=/x#z"; PurePopState;
     HistoryCall "pushState" "/?shop=/x#top"; PurePopState;
     HistoryCall "pushState" "/?shop=/cart#y"; Reload None;
     HistoryCall "replaceState" "/?shop=/x"; Reload None;
     LocationHref (VString "/?shop=/x?q=1")]
  /\ get_hash w' = Returned "#y" w'
  /\ get_pathname w' = Returned "/x" w'.
Proof.
  intros w w'. split; [reflexivity|].
  destruct (@navigation_keeps_shadow (Sample.env false)
              [SetHash "z"; Assign (VString "/x#top"); SetPathname "/cart";
               CommonHandle (VString "/x") "replaceState"; SetHref (VString "/x?q=1")]
              w eq_refl)
    as (_ & _ & Hp & _ & Hh).
  split; [exact Hh | exact Hp].
Defined.

(** * Further properties of location.ts *)

(** ** The setter of search *)

(** X1. A write to search resolves the shadow's pathname, one '?' and the
    value without its leading '?'s, and the shadow's hash.  When the
    resolved search is the shadow's and the shadow's hash is not empty, the
    setter dispatches one notification and makes no other call.  Otherwise
    it makes one history call with the encoded path, replaceState when the
    resolved search is the shadow's and pushState when it is not, and then
    reloads. *)
Theorem set_search_notifies_or_reloads `{Env} (w : World) (value : string)
    (target : URL.t) :
  let m := location w in
  let shadow := MicroLocation.shadowLocation m in
  let path := fullPath (setMicroPathToURL (calls w) (MicroLocation.appName m) target) in
  createURL
    (VString (ShadowLocation.pathname shadow
              ++ String "?" (strip_leading "?" value)
              ++ ShadowLocation.hash shadow))
    (Some (MicroLocation.url m)) = Some target ->
  (URL.search target = ShadowLocation.search shadow ->
   ShadowLocation.hash shadow <> "" ->
   set_search value w = Returned tt (after_calls w [PurePopState]))
  /\ (URL.search target = ShadowLocation.search shadow ->
      ShadowLocation.hash shadow = "" ->
      set_search value w =
        Returned tt (after_calls w [HistoryCall "replaceState" path; Reload None]))
  /\ (URL.search target <> ShadowLocation.search shadow ->
      set_search value w =
        Returned tt (after_calls w [HistoryCall "pushState" path; Reload None])).
Proof.
  intros m shadow path Hres.
  unfold set_search, resolve, getLocation, getShadow, bind.
  fold m shadow. rewrite replace_leading_cons, Hres.
  change (ret target w) with (Returned target w). cbv beta iota.
  split; [|split].
  - intros Hs Hh. rewrite Hs, String.eqb_refl, (truthy_nonempty _ Hh).
    reflexivity.
  - intros Hs Hh. rewrite Hs, String.eqb_refl, Hh. simpl.
    unfold_ops. tidy_calls. reflexivity.
  - intros Hs. rewrite (eqb_neq_false _ _ Hs). simpl.
    unfold_ops. tidy_calls. reflexivity.
Qed.

Lemma set_search_notifies_or_reloads_witness :
  let w := Sample.world "/x" "?q=1" "#y" in
  @set_search (Sample.env false) "??q=1" w = Returned tt (after_calls w [PurePopState])
  /\ @set_search (Sample.env false) "page=2" w =
       Returned tt
         (after_calls w [HistoryCall "pushState" "/?shop=/x?page=2#y"; Reload None])
  /\ @set_search (Sample.env false) "q=1" (Sample.world "/x" "?q=1" "") =
       Returned tt (after_calls (Sample.world "/x" "?q=1" "")
                      [HistoryCall "replaceState" "/?shop=/x?q=1"; Reload None]).
Proof.
  intros w. split; [|split].
  - apply (@set_search_notifies_or_reloads (Sample.env false) w "??q=1"
             (URL.mk "https://app.example/x?q=1#y" "https://app.example"
                "https:" "" "app.example" "app.example" "" "/x" "?q=1" "#y")).
    + reflexivity.
    + reflexivity.
    + simpl. discriminate.
  - apply (@set_search_notifies_or_reloads (Sample.env false) w "page=2"
             (URL.mk "https://app.example/x?page=2#y" "https://app.example"
                "https:" "" "app.example" "app.example" "" "/x" "?page=2" "#y")).
    + reflexivity.
    + simpl. discriminate.
  - apply (@set_search_notifies_or_reloads (Sample.env false)
             (Sample.world "/x" "?q=1" "") "q=1"
             (URL.mk "https://app.example/x?q=1" "https://app.example"
                "https:" "" "app.example" "app.example" "" "/x" "?q=1" "")).
    + reflexivity.
    + reflexivity.
    + reflexivity.
Defined.

(** ** The same address again *)

(** X2. When the target is of the app's origin and its pathname, search
    and hash are all the shadow's, [commonHandle] makes no history call:
    it dispatches one notification when the hash is not empty and reloads
    when it is, and returns undefined, so that assign, replace and the href
    setter make no call of their own. *)
Theorem same_address_adds_no_history `{Env} (w : World) (value : Value)
    (methodName : string) (target : URL.t) :
  let m := location w in
  let shadow := MicroLocation.shadowLocation m in
  let e := if truthy (ShadowLocation.hash shadow) then PurePopState else Reload None in
  createURL value (Some (MicroLocation.url m)) = Some target ->
  URL.origin target = MicroLocation.origin m ->
  URL.pathname target = ShadowLocation.pathname shadow ->
  URL.search target = ShadowLocation.search shadow ->
  URL.hash target = ShadowLocation.hash shadow ->
  commonHandle value methodName w = Returned None (after_calls w [e])
  /\ assign value w = Returned tt (after_calls w [e])
  /\ replace value w = Returned tt (after_calls w [e])
  /\ set_href value w = Returned tt (after_calls w [e]).
Proof.
  intros m shadow e Hres Ho Hp Hs Hh.
  assert (Hc : forall mn, commonHandle value mn w = Returned None (after_calls w [e])).
  { intros mn. unfold_ops. fold m. rewrite Hres, Ho, String.eqb_refl.
    simpl. fold m shadow. rewrite Hp, Hs, Hh, !String.eqb_refl. simpl.
    subst e. destruct (truthy (ShadowLocation.hash shadow)); reflexivity. }
  split; [apply Hc|].
  unfold assign, replace, createLocationMethod, set_href, bind.
  rewrite !Hc. split; [|split]; reflexivity.
Qed.

Lemma same_address_adds_no_history_witness :
  @assign (Sample.env false) (VString "/x?q=1#y") (Sample.world "/x" "?q=1" "#y")
    = Returned tt (after_calls (Sample.world "/x" "?q=1" "#y") [PurePopState])
  /\ @replace (Sample.env false) (VString "https://app.example/x") (Sample.world "/x" "" "")
     = Returned tt (after_calls (Sample.world "/x" "" "") [Reload None]).
Proof.
  split.
  - apply (@same_address_adds_no_history (Sample.env false)
             (Sample.world "/x" "?q=1" "#y") (VString "/x?q=1#y") "pushState"
             (URL.mk "https://app.example/x?q=1#y" "https://app.example"
                "https:" "" "app.example" "app.example" "" "/x" "?q=1" "#y"));
      reflexivity.
  - apply (@same_address_adds_no_history (Sample.env false)
             (Sample.world "/x" "" "") (VString "https://app.example/x") "replaceState"
             (URL.mk "https://app.example/x" "https://app.example"
                "https:" "" "app.example" "app.example" "" "/x" "" ""));
      reflexivity.
Defined.

(** ** assign, replace and the href setter when the path changes *)

(** X4. Same origin, and a pathname or a search that differs from the
    shadow's.  When the codec reports attach2Hash, assign and the href
    setter call pushState and replace calls replaceState, each followed by
    a reload, and the host's location is not called.  Otherwise no history
    call and no reload is made: the encoded full path goes to
    rawLocation.assign, rawLocation.replace or rawLocation.href, and when
    that path is the empty string nothing is called at all. *)
Theorem path_change_is_handled_or_delegated `{Env} (w : World) (value : Value)
    (target : URL.t) :
  let m := location w in
  let shadow := MicroLocation.shadowLocation m in
  let result := setMicroPathToURL (calls w) (MicroLocation.appName m) target in
  let finish (methodName : string) (last : Value -> Event) :=
    Returned tt
      (if attach2Hash result
       then after_calls w [HistoryCall methodName (fullPath result); Reload None]
       else if fullPath result =? "" then w
       else after_calls w [last (VString (fullPath result))]) in
  createURL value (Some (MicroLocation.url m)) = Some target ->
  URL.origin target = MicroLocation.origin m ->
  URL.pathname target <> ShadowLocation.pathname shadow
    \/ URL.search target <> ShadowLocation.search shadow ->
  assign value w = finish "pushState" (LocationCall "assign")
  /\ replace value w = finish "replaceState" (LocationCall "replace")
  /\ set_href value w = finish "pushState" LocationHref.
Proof.
  intros m shadow result finish Hres Ho Hd.
  assert (Hc : forall mn, commonHandle value mn w =
            if attach2Hash result
            then Returned None
                   (after_calls w [HistoryCall mn (fullPath result); Reload None])
            else Returned (Some (VString (fullPath result))) w).
  { intros mn. unfold_ops. fold m. rewrite Hres, Ho, String.eqb_refl.
    simpl. fold m shadow.
    assert (Hf : (URL.pathname target =? ShadowLocation.pathname shadow)
                 && (URL.search target =? ShadowLocation.search shadow) = false).
    { destruct Hd as [Hd | Hd]; rewrite (eqb_neq_false _ _ Hd).
      - reflexivity.
      - apply andb_false_r. }
    rewrite Hf. fold result.
    destruct (attach2Hash result); [|reflexivity].
    tidy_calls. reflexivity. }
  unfold assign, replace, createLocationMethod, set_href, bind, finish.
  rewrite !Hc.
  destruct (attach2Hash result); [split; [|split]; reflexivity|].
  simpl. unfold truthy.
  destruct (fullPath result =? ""); split; [|split| |split]; reflexivity.
Qed.

Lemma path_change_is_handled_or_delegated_witness :
  let w := Sample.world "/x" "" "#a" in
  @assign (Sample.env false) (VString "/cart?id=7") w =
    Returned tt (after_calls w [LocationCall "assign" (VString "/?shop=/cart?id=7")])
  /\ @replace (Sample.env true) (VString "/cart") w =
       Returned tt
         (after_calls w [HistoryCall "replaceState" "/#/?shop=/cart"; Reload None]).
Proof.
  intros w. split.
  - apply (@path_change_is_handled_or_delegated (Sample.env false) w
             (VString "/cart?id=7")
             (URL.mk "https://app.example/cart?id=7" "https://app.example"
                "https:" "" "app.example" "app.example" "" "/cart" "?id=7" "")).
    + reflexivity.
    + reflexivity.
    + left. simpl. discriminate.
  - apply (@path_change_is_handled_or_delegated (Sample.env true) w
             (VString "/cart")
             (URL.mk "https://app.example/cart" "https://app.example"
                "https:" "" "app.example" "app.example" "" "/cart" "" "")).
    + reflexivity.
    + reflexivity.
    + left. simpl. discriminate.
Defined.

(** ** What an operation can call *)

Lemma handled_call_shape (allowed : string -> bool) (es : list Event) :
  handled allowed es = true ->
  match es with
  | [] => True
  | [e] => is_commit e = false /\ is_raw_navigation e = false
  | [e1; e2] =>
      (exists m p, e1 = HistoryCall m p /\ allowed m = true)
      /\ is_reload_or_notification e2 = true
  | _ => False
  end.
Proof.
  destruct es as [|e1 [|e2 [|e3 rest]]]; simpl; intros Hh.
  - exact I.
  - destruct e1 as [| |[?|]| |]; try discriminate; split; reflexivity.
  - destruct e1 as [m p| |[?|]| |]; try discriminate.
    destruct e2 as [| |[?|]| |]; try discriminate;
      (split; [exists m, p; split; [reflexivity|exact Hh] | reflexivity]).
  - destruct e1 as [m p| |[?|]| |]; try discriminate.
    destruct e2 as [| |[?|]| |]; discriminate.
Qed.

(** What [commonHandle] has called, by what it returns. *)
Lemma commonHandle_shape `{Env} (value : Value) (methodName : string) (w : World) :
  match commonHandle value methodName w with
  | Returned None w' =>
      exists es, w' = after_calls w es /\ handled (String.eqb methodName) es = true
  | Returned (Some _) w' => w' = w
  | Thrown w' => w' = w
  end.
Proof.
  unfold_ops.
  destruct (createURL value (Some (MicroLocation.url (location w)))) as [t|];
    simpl; [|reflexivity].
  destruct (URL.origin t =? MicroLocation.origin (location w)); simpl;
    [|reflexivity].
  destruct ((URL.pathname t =? _) && (URL.search t =? _)); simpl.
  - destruct (URL.hash t =? _); simpl; destruct (truthy (URL.hash t)); simpl;
      eexists; (split; [tidy_calls; reflexivity | simpl; rewrite ?String.eqb_refl; reflexivity]).
  - destruct (attach2Hash _); simpl; [|reflexivity].
    eexists; (split; [tidy_calls; reflexivity | simpl; rewrite ?String.eqb_refl; reflexivity]).
Qed.

Lemma caller_shape `{Env} (value : Value) (methodName : string) (w : World)
    (last : Value -> Event) :
  let after :=
    bind (commonHandle value methodName)
      (fun formattedValue =>
         match formattedValue with
         | Some v => if truthy_value formattedValue then call (last v) else ret tt
         | None => ret tt
         end) w in
  (exists w', after = Returned tt w' \/ (after = Thrown w' /\ w' = w))
  /\ exists es,
       calls (world_after after) = (calls w ++ es)%list
       /\ (handled (String.eqb methodName) es = true \/ exists v, es = [last v]).
Proof.
  intros after. subst after. unfold bind.
  pose proof (commonHandle_shape value methodName w) as Hs.
  destruct (commonHandle value methodName w) as [[v|] w'|w'].
  - subst w'. destruct (truthy_value (Some v)); simpl.
    + split; [eexists; left; reflexivity|].
      exists [last v]. split; [reflexivity|]. right. exists v. reflexivity.
    + split; [eexists; left; reflexivity|].
      exists []. rewrite app_nil_r. split; [reflexivity|]. left. reflexivity.
  - destruct Hs as (es & -> & Hh). simpl.
    split; [eexists; left; reflexivity|]. exists es. auto.
  - subst w'. simpl. split; [exists w; right; auto|].
    exists []. rewrite app_nil_r. split; [reflexivity|]. left. reflexivity.
Qed.

(** Decide the tests an unfolded operation branches on. *)
Ltac split_tests :=
  repeat match goal with
         | |- context [if ?b then _ else _] => destruct b; simpl
         end.

Lemma run_shape `{Env} (op : Op) (w : World) :
  exists es,
    calls (world_after (run op w)) = (calls w ++ es)%list
    /\ op_calls op es = true.
Proof.
  destruct op as [value methodName|value|value|forced|value|value|value|value|path base].
  - pose proof (commonHandle_shape value methodName w) as Hs.
    simpl. unfold bind, ret.
    destruct (commonHandle value methodName w) as [[v|] w'|w']; simpl.
    + subst w'. exists []. rewrite app_nil_r. auto.
    + destruct Hs as (es & -> & Hh). exists es. auto.
    + subst w'. exists []. rewrite app_nil_r. auto.
  - destruct (caller_shape value "pushState" w (LocationCall "assign"))
      as (_ & es & Hes & Hh).
    exists es. split; [exact Hes|]. unfold op_calls.
    destruct Hh as [Hh | [v ->]]; [rewrite Hh|]; reflexivity.
  - destruct (caller_shape value "replaceState" w (LocationCall "replace"))
      as (_ & es & Hes & Hh).
    exists es. split; [exact Hes|]. unfold op_calls.
    destruct Hh as [Hh | [v ->]]; [rewrite Hh|]; reflexivity.
  - exists [Reload forced]. split; reflexivity.
  - destruct (caller_shape value "pushState" w LocationHref)
      as (_ & es & Hes & Hh).
    exists es. split; [exact Hes|]. unfold op_calls.
    destruct Hh as [Hh | [v ->]]; [rewrite Hh|]; reflexivity.
  - unfold_ops.
    destruct (createURL _ _) as [t|]; simpl;
      [|exists []; rewrite app_nil_r; auto].
    split_tests;
      (eexists; split; [rewrite <- ?app_assoc; simpl; reflexivity | reflexivity]).
  - unfold_ops.
    destruct (createURL _ _) as [t|]; simpl;
      [|exists []; rewrite app_nil_r; auto].
    split_tests;
      (eexists; split; [rewrite <- ?app_assoc; simpl; reflexivity | reflexivity]).
  - unfold_ops.
    destruct (createURL _ _) as [t|]; simpl;
      [|exists []; rewrite app_nil_r; auto].
    destruct (URL.hash t =? _); simpl.
    + exists []; rewrite app_nil_r; auto.
    + eexists; split; [rewrite <- ?app_assoc; simpl; reflexivity | reflexivity].
  - exists []. rewrite app_nil_r. simpl. unfold updateLocation, resolve, bind.
    destruct (createURL _ _) as [t|]; simpl; split; reflexivity.
Qed.

Lemma emitted_run `{Env} (op : Op) (w : World) :
  op_calls op (emitted w (run op w)) = true.
Proof.
  destruct (run_shape op w) as (es & Hes & Hok).
  unfold emitted. rewrite Hes, skipn_own_length. exact Hok.
Qed.

(** X5. Whatever the operation and the state, the calls it makes are:
    none; or one call, which is not a history call; or a history call
    followed by one reload or one notification.  So a history entry is
    never added without a reload or a notification after it, an operation
    never both reloads and notifies, and a navigation handed to the
    host's location comes with no other call. *)
Theorem operation_calls_are_bounded `{Env} (op : Op) (w : World) :
  match emitted w (run op w) with
  | [] => True
  | [e] => is_commit e = false
  | [e1; e2] =>
      is_commit e1 = true /\ is_reload_or_notification e2 = true
  | _ => False
  end.
Proof.
  pose proof (emitted_run op w) as Hok.
  assert (Hh : forall allowed es, handled allowed es = true ->
            match es with
            | [] => True
            | [e] => is_commit e = false
            | [e1; e2] => is_commit e1 = true /\ is_reload_or_notification e2 = true
            | _ => False
            end).
  { intros allowed es Hes. pose proof (handled_call_shape allowed es Hes) as Hs.
    destruct es as [|e1 [|e2 [|e3 rest]]]; try exact Hs.
    - tauto.
    - destruct Hs as [(m & p & -> & _) He2]. split; [reflexivity | exact He2]. }
  destruct op; simpl in Hok;
    try (apply orb_true_iff in Hok as [Hok | Hok]);
    try solve [eapply Hh; exact Hok];
    destruct (emitted w _) as [|e1 [|e2 [|e3 rest]]]; try discriminate;
    try exact I;
    try (destruct e1 as [m p| |[?|]| |]; try discriminate; try reflexivity);
    try (destruct e2 as [| |[?|]| |]; try discriminate; split; reflexivity).
Qed.

Example operation_calls_sample :
  emitted (Sample.world "/x" "" "#a")
    (@run (Sample.env false) (Replace (VString "/x")) (Sample.world "/x" "" "#a"))
  = [HistoryCall "replaceState" "/?shop=/x"; Reload None]
  /\ emitted (Sample.world "/x" "" "#a")
       (@run (Sample.env false) (Assign (VString "https://other.example/"))
          (Sample.world "/x" "" "#a"))
     = [LocationCall "assign" (VString "https://other.example/")].
Proof. split; reflexivity. Qed.

Lemma handled_history_method (allowed : string -> bool) (es : list Event)
    (m p : string) :
  handled allowed es = true -> In (HistoryCall m p) es -> allowed m = true.
Proof.
  intros Hh Hin. pose proof (handled_call_shape allowed es Hh) as Hs.
  destruct es as [|e1 [|e2 [|e3 rest]]]; simpl in Hin.
  - contradiction.
  - destruct Hs as [Hc _]. destruct Hin as [-> | []]. discriminate.
  - destruct Hs as [(m' & p' & -> & Ha) He2].
    destruct Hin as [Hin | [-> | []]].
    + injection Hin as <- <-. exact Ha.
    + discriminate.
  - contradiction.
Qed.

(** X6. The method of a history call is fixed by the operation that makes
    it: assign, the href setter and the hash setter only ever call
    pushState, replace only replaceState, the pathname and search setters
    one of the two, [commonHandle] the method it was given; reload and
    [updateLocation] make no history call. *)
Theorem history_method_by_operation `{Env} (op : Op) (w : World) (m p : string) :
  In (HistoryCall m p) (emitted w (run op w)) ->
  match op with
  | CommonHandle _ methodName => m = methodName
  | Assign _ | SetHref _ | SetHash _ => m = "pushState"
  | Replace _ => m = "replaceState"
  | SetPathname _ | SetSearch _ => m = "pushState" \/ m = "replaceState"
  | ReloadPage _ | UpdateLocation _ _ => False
  end.
Proof.
  intros Hin. pose proof (emitted_run op w) as Hok.
  destruct op; unfold op_calls in Hok.
  - symmetry. apply String.eqb_eq.
    exact (handled_history_method _ _ m p Hok Hin).
  - apply orb_true_iff in Hok as [Hok | Hok].
    + symmetry. apply String.eqb_eq.
      exact (handled_history_method _ _ m p Hok Hin).
    + destruct (emitted w _) as [|[| | |n v|] [|? ?]]; try discriminate.
      destruct Hin as [Hin | []]. discriminate.
  - apply orb_true_iff in Hok as [Hok | Hok].
    + symmetry. apply String.eqb_eq.
      exact (handled_history_method _ _ m p Hok Hin).
    + destruct (emitted w _) as [|[| | |n v|] [|? ?]]; try discriminate.
      destruct Hin as [Hin | []]. discriminate.
  - destruct (emitted w _) as [|[| |f| |] [|? ?]]; try discriminate.
    destruct Hin as [Hin | []]. discriminate.
  - apply orb_true_iff in Hok as [Hok | Hok].
    + symmetry. apply String.eqb_eq.
      exact (handled_history_method _ _ m p Hok Hin).
    + destruct (emitted w _) as [|[| | | |v] [|? ?]]; try discriminate.
      destruct Hin as [Hin | []]. discriminate.
  - destruct (emitted w _) as [|e1 [|e2 [|? ?]]]; try contradiction.
    + destruct e1 as [| |[?|]| |]; try discriminate.
      destruct Hin as [Hin | []]. discriminate.
    + destruct e1 as [m' p'| |[?|]| |]; try discriminate.
      destruct e2 as [| |[?|]| |]; try discriminate.
      destruct Hin as [Hin | [Hin | []]]; [|discriminate].
      injection Hin as -> ->.
      apply orb_true_iff in Hok as [Hok | Hok]; apply String.eqb_eq in Hok; auto.
    + destruct e1 as [m' p'| |[?|]| |]; try discriminate.
      destruct e2 as [| |[?|]| |]; discriminate.
  - destruct (emitted w _) as [|e1 [|e2 [|? ?]]]; try contradiction.
    + destruct e1 as [| |[?|]| |]; try discriminate.
      destruct Hin as [Hin | []]. discriminate.
    + destruct e1 as [m' p'| |[?|]| |]; try discriminate.
      destruct e2 as [| |[?|]| |]; try discriminate.
      destruct Hin as [Hin | [Hin | []]]; [|discriminate].
      injection Hin as -> ->.
      apply orb_true_iff in Hok as [Hok | Hok]; apply String.eqb_eq in Hok; auto.
    + destruct e1 as [m' p'| |[?|]| |]; try discriminate.
      destruct e2 as [| |[?|]| |]; discriminate.
  - destruct (emitted w _) as [|e1 [|e2 [|? ?]]]; try contradiction.
    + destruct e1; discriminate.
    + destruct e1 as [m' p'| |[?|]| |]; try discriminate.
      destruct e2 as [| |[?|]| |]; try discriminate.
      destruct Hin as [Hin | [Hin | []]]; [|discriminate].
      injection Hin as -> ->. apply String.eqb_eq in Hok. exact Hok.
    + destruct e1 as [m' p'| |[?|]| |]; try discriminate.
      destruct e2 as [| |[?|]| |]; discriminate.
  - destruct (emitted w _) as [|? ?]; [contradiction | discriminate].
Qed.

Lemma history_method_by_operation_witness :
  In (HistoryCall "replaceState" "/?shop=/x")
     (emitted (Sample.world "/x" "" "#a")
        (@run (Sample.env false) (Replace (VString "/x")) (Sample.world "/x" "" "#a")))
  /\ "replaceState" = "replaceState".
Proof.
  assert (Hin : In (HistoryCall "replaceState" "/?shop=/x")
                  (emitted (Sample.world "/x" "" "#a")
                     (@run (Sample.env false) (Replace (VString "/x"))
                        (Sample.world "/x" "" "#a")))).
  { left. reflexivity. }
  split; [exact Hin|].
  exact (@history_method_by_operation (Sample.env false) (Replace (VString "/x"))
           (Sample.world "/x" "" "#a") "replaceState" "/?shop=/x" Hin).
Defined.

(** X7. The setters of pathname, search and hash never call
    rawLocation.assign, rawLocation.replace or the setter of
    rawLocation.href, whatever the value and whatever it resolves to: they
    do not look at the origin.  The setter of hash, besides, never
    reloads. *)
Theorem setters_stay_in_page `{Env} (value : string) (w : World) :
  existsb is_raw_navigation (emitted w (set_pathname value w)) = false
  /\ existsb is_raw_navigation (emitted w (set_search value w)) = false
  /\ existsb is_raw_navigation (emitted w (set_hash value w)) = false
  /\ existsb is_reload (emitted w (set_hash value w)) = false.
Proof.
  pose proof (emitted_run (SetPathname value) w) as Hp.
  pose proof (emitted_run (SetSearch value) w) as Hs.
  pose proof (emitted_run (SetHash value) w) as Hh.
  simpl in Hp, Hs, Hh.
  split; [|split; [|split]].
  - destruct (emitted w (set_pathname value w)) as [|e1 [|e2 [|? ?]]];
      try discriminate; try reflexivity.
    + destruct e1 as [| |[?|]| |]; try discriminate. reflexivity.
    + destruct e1 as [| |[?|]| |]; try discriminate.
      destruct e2 as [| |[?|]| |]; try discriminate. reflexivity.
    + destruct e1 as [| |[?|]| |]; try discriminate.
      destruct e2 as [| |[?|]| |]; discriminate.
  - destruct (emitted w (set_search value w)) as [|e1 [|e2 [|? ?]]];
      try discriminate; try reflexivity.
    + destruct e1 as [| |[?|]| |]; try discriminate. reflexivity.
    + destruct e1 as [| |[?|]| |]; try discriminate.
      destruct e2 as [| |[?|]| |]; try discriminate. reflexivity.
    + destruct e1 as [| |[?|]| |]; try discriminate.
      destruct e2 as [| |[?|]| |]; discriminate.
  - destruct (emitted w (set_hash value w)) as [|e1 [|e2 [|? ?]]];
      try discriminate; try reflexivity.
    + destruct e1; discriminate.
    + destruct e1 as [| |[?|]| |]; try discriminate.
      destruct e2 as [| |[?|]| |]; try discriminate. reflexivity.
    + destruct e1 as [| |[?|]| |]; try discriminate.
      destruct e2 as [| |[?|]| |]; discriminate.
  - destruct (emitted w (set_hash value w)) as [|e1 [|e2 [|? ?]]];
      try discriminate; try reflexivity.
    + destruct e1; discriminate.
    + destruct e1 as [| |[?|]| |]; try discriminate.
      destruct e2 as [| |[?|]| |]; try discriminate. reflexivity.
    + destruct e1 as [| |[?|]| |]; try discriminate.
      destruct e2 as [| |[?|]| |]; discriminate.
Qed.

(** ** Exceptions *)

(** X3. An operation that throws has called nothing and stored nothing:
    the only statement that can throw is the resolution of the target,
    which comes before every call and every store.  This holds for
    [commonHandle], assign, replace, reload, the four setters and
    [updateLocation]. *)
Theorem throwing_changes_nothing `{Env} (op : Op) (w w' : World) :
  run op w = Thrown w' -> w' = w.
Proof.
  destruct op as [value methodName|value|value|forced|value|value|value|value|path base];
    simpl.
  - pose proof (commonHandle_shape value methodName w) as Hs.
    unfold bind, ret.
    destruct (commonHandle value methodName w) as [[v|] w1|w1]; intros Hrun;
      try discriminate.
    injection Hrun as <-. exact Hs.
  - destruct (caller_shape value "pushState" w (LocationCall "assign"))
      as ((w1 & [Hr | [Hr Hw]]) & _); intros Hrun.
    + unfold assign, createLocationMethod in Hrun. simpl in Hrun, Hr.
      rewrite Hr in Hrun. discriminate.
    + unfold assign, createLocationMethod in Hrun. simpl in Hrun, Hr.
      rewrite Hr in Hrun. injection Hrun as <-. exact Hw.
  - destruct (caller_shape value "replaceState" w (LocationCall "replace"))
      as ((w1 & [Hr | [Hr Hw]]) & _); intros Hrun.
    + unfold replace, createLocationMethod in Hrun. simpl in Hrun, Hr.
      rewrite Hr in Hrun. discriminate.
    + unfold replace, createLocationMethod in Hrun. simpl in Hrun, Hr.
      rewrite Hr in Hrun. injection Hrun as <-. exact Hw.
  - discriminate.
  - destruct (caller_shape value "pushState" w LocationHref)
      as ((w1 & [Hr | [Hr Hw]]) & _); intros Hrun.
    + unfold set_href in Hrun. simpl in Hr. rewrite Hr in Hrun. discriminate.
    + unfold set_href in Hrun. simpl in Hr. rewrite Hr in Hrun.
      injection Hrun as <-. exact Hw.
  - unfold_ops. destruct (createURL _ _) as [t|]; simpl.
    + split_tests; discriminate.
    + intros Hrun. injection Hrun as <-. reflexivity.
  - unfold_ops. destruct (createURL _ _) as [t|]; simpl.
    + split_tests; discriminate.
    + intros Hrun. injection Hrun as <-. reflexivity.
  - unfold_ops. destruct (createURL _ _) as [t|]; simpl.
    + split_tests; discriminate.
    + intros Hrun. injection Hrun as <-. reflexivity.
  - unfold updateLocation, resolve, bind.
    destruct (createURL _ _) as [t|]; simpl.
    + discriminate.
    + intros Hrun. injection Hrun as <-. reflexivity.
Qed.

Lemma throwing_changes_nothing_witness :
  let w := after_calls (Sample.world "/x" "" "#a") [PurePopState] in
  @run (Sample.env false) (Assign (VString "no scheme, no slash")) w = Thrown w
  /\ w = w.
Proof.
  intros w. split; [reflexivity|].
  apply (@throwing_changes_nothing (Sample.env false)
           (Assign (VString "no scheme, no slash")) w w).
  reflexivity.
Defined.

(** ** updateLocation, again and with the other operations *)

Lemma updateLocation_world `{Env} (path base : string) (w : World) :
  world_after (updateLocation path base w) =
  match createURL (VString path) (Some base) with
  | None => w
  | Some n => {| location := copied n (location w); calls := calls w |}
  end.
Proof.
  unfold updateLocation, resolve, bind.
  destruct (createURL (VString path) (Some base)) as [n|]; reflexivity.
Qed.

(** X8. In the shadow the last [updateLocation] wins: when the second
    path resolves, two updates in a row leave the same [shadowLocation] as
    the second alone, whether the first resolved or threw; no call has
    been made on the host page; and the four getters return the href,
    pathname, search and hash of the second resolved URL.  (The URL
    object under the facade has gone through the setters of both updates,
    and need not be the same.) *)
Theorem updateLocation_last_wins `{Env} (p1 b1 p2 b2 : string) (n2 : URL.t)
    (w : World) :
  createURL (VString p2) (Some b2) = Some n2 ->
  let w2 :=
    world_after (updateLocation p2 b2 (world_after (updateLocation p1 b1 w))) in
  MicroLocation.shadowLocation (location w2)
    = MicroLocation.shadowLocation (location (world_after (updateLocation p2 b2 w)))
  /\ calls w2 = calls w
  /\ get_href w2 = Returned (URL.href n2) w2
  /\ get_pathname w2 = Returned (URL.pathname n2) w2
  /\ get_search w2 = Returned (URL.search n2) w2
  /\ get_hash w2 = Returned (URL.hash n2) w2.
Proof.
  intros Hres w2. subst w2.
  rewrite !updateLocation_world, Hres.
  destruct (createURL (VString p1) (Some b1)) as [n1|];
    (split; [reflexivity | split; [reflexivity | split; [|split; [|split]]]];
     reflexivity).
Qed.

Lemma updateLocation_last_wins_witness :
  let w := Sample.world "/x" "" "#y" in
  let w2 :=
    world_after
      (@updateLocation (Sample.env false) "/cart?id=7#top" "https://app.example/"
         (world_after
            (@updateLocation (Sample.env false) "/list" "https://shop.example:8443/" w))) in
  MicroLocation.shadowLocation (location w2)
    = ShadowLocation.mk "https://app.example/cart?id=7#top" "/cart" "?id=7" "#top" []
  /\ get_pathname w2 = Returned "/cart" w2
  /\ get_hash w2 = Returned "#top" w2.
Proof.
  intros w w2.
  destruct (@updateLocation_last_wins (Sample.env false)
              "/list" "https://shop.example:8443/"
              "/cart?id=7#top" "https://app.example/"
              (URL.mk "https://app.example/cart?id=7#top" "https://app.example"
                 "https:" "" "app.example" "app.example" "" "/cart" "?id=7" "#top")
              w eq_refl)
    as (Hs & _ & _ & Hp & _ & Hh).
  split; [exact Hs | split; [exact Hp | exact Hh]].
Defined.

Lemma mirrors_copied `{Env} (n : URL.t) (m : MicroLocation.t) :
  mirrors n (copied n m) = true.
Proof. unfold mirrors, copied. simpl. rewrite !String.eqb_refl. reflexivity. Qed.

Lemma run_all_mirrors `{Env} (ops : list Op) (w : World) :
  (exists u value base,
      createURL value base = Some u /\ mirrors u (location w) = true) ->
  exists u value base,
    createURL value base = Some u /\ mirrors u (location (run_all ops w)) = true.
Proof.
  revert w. induction ops as [|op ops IH]; intros w Hinv.
  - exact Hinv.
  - change (run_all (op :: ops) w) with (run_all ops (world_after (run op w))).
    apply IH.
    destruct (is_navigation op) eqn:Hnav.
    + destruct (run_calls op w) as (es & _ & _ & Hloc).
      rewrite (Hloc Hnav). exact Hinv.
    + destruct op; try discriminate. simpl.
      rewrite updateLocation_world.
      destruct (createURL (VString path) (Some base)) as [n|] eqn:Hres.
      * exists n, (VString path), (Some base). split; [exact Hres|].
        apply mirrors_copied.
      * exact Hinv.
Qed.

(** X9. From the moment [createMicroLocation] returns it, and through any
    sequence of operations, the href, pathname, search and hash of the
    shadow are those of one and the same URL that [createURL] has
    resolved: never a mix of two addresses. *)
Theorem shadow_mirrors_one_url `{Env} (appName url : string)
    (m : MicroLocation.t) (ops : list Op) :
  createMicroLocation appName url = Some m ->
  exists u value base,
    createURL value base = Some u
    /\ mirrors u (location (run_all ops {| location := m; calls := [] |})) = true.
Proof.
  intros Hm. apply run_all_mirrors.
  unfold createMicroLocation in Hm.
  destruct (createURL (VString url) None) as [u|] eqn:Hres; [|discriminate].
  injection Hm as <-.
  exists u, (VString url), None. split; [exact Hres|].
  unfold mirrors. simpl. rewrite !String.eqb_refl. reflexivity.
Qed.

Lemma shadow_mirrors_one_url_witness :
  exists u value base,
    Sample.createURL value base = Some u
    /\ mirrors u
         (location
            (@run_all (Sample.env false)
               [SetHash "z"; UpdateLocation "/cart?id=7#top" "https://app.example/";
                Assign (VString "/cart?id=8"); UpdateLocation "::" "nowhere"]
               {| location :=
                    MicroLocation.mk "shop" "https://app.example/x#y"
                      (URL.mk "https://app.example/x#y" "https://app.example"
                         "https:" "" "app.example" "app.example" "" "/x" "" "#y")
                      (ShadowLocation.mk "https://app.example/x#y" "/x" "" "#y" []);
                  calls := [] |})) = true.
Proof.
  apply (@shadow_mirrors_one_url (Sample.env false) "shop" "https://app.example/x#y").
  reflexivity.
Defined.

(** X10. A write to hash settles once the shadow has caught up: after
    the write, and an [updateLocation] to an address with the shadow's
    pathname and search and the hash the write resolved to, writing the
    same value again makes no call. *)
Theorem hash_write_settles_after_update `{Env} (w : World) (value path base : string)
    (target n : URL.t) :
  let m := location w in
  let shadow := MicroLocation.shadowLocation m in
  createURL
    (VString (ShadowLocation.pathname shadow ++ ShadowLocation.search shadow
              ++ String "#" (strip_leading "#" value)))
    (Some (MicroLocation.url m)) = Some target ->
  createURL (VString path) (Some base) = Some n ->
  URL.pathname n = ShadowLocation.pathname shadow ->
  URL.search n = ShadowLocation.search shadow ->
  URL.hash n = URL.hash target ->
  let w1 := world_after (set_hash value w) in
  let w2 := world_after (updateLocation path base w1) in
  set_hash value w2 = Returned tt w2.
Proof.
  intros m shadow Hres Hn Hp Hs Hh w1 w2.
  assert (Hloc : location w1 = location w).
  { destruct (run_calls (SetHash value) w) as (es & _ & _ & Hloc).
    exact (Hloc eq_refl). }
  assert (Hw2 : location w2 = copied n (location w)).
  { subst w2. rewrite updateLocation_world, Hn. simpl. rewrite Hloc. reflexivity. }
  unfold set_hash, resolve, getLocation, getShadow, bind.
  rewrite replace_leading_cons, Hw2. simpl. fold m shadow.
  rewrite Hp, Hs, Hres.
  change (ret target w2) with (Returned target w2). cbv beta iota.
  rewrite Hh, String.eqb_refl. reflexivity.
Qed.

Lemma hash_write_settles_after_update_witness :
  let w := Sample.world "/x" "?q=1" "" in
  let w1 := world_after (@set_hash (Sample.env false) "#top" w) in
  let w2 :=
    world_after
      (@updateLocation (Sample.env false) "/x?q=1#top" "https://app.example/" w1) in
  calls w1 = [HistoryCall "pushState" "/?shop=/x?q=1#top"; PurePopState]
  /\ @set_hash (Sample.env false) "#top" w2 = Returned tt w2.
Proof.
  intros w w1 w2. split; [reflexivity|].
  apply (@hash_write_settles_after_update (Sample.env false) w "#top"
           "/x?q=1#top" "https://app.example/"
           (URL.mk "https://app.example/x?q=1#top" "https://app.example"
              "https:" "" "app.example" "app.example" "" "/x" "?q=1" "#top")
           (URL.mk "https://app.example/x?q=1#top" "https://app.example"
              "https:" "" "app.example" "app.example" "" "/x" "?q=1" "#top"));
    reflexivity.
Defined.

(** ** Where a history entry comes from *)

Lemma skipn_whole (l : list Event) : skipn (length l) l = [].
Proof. induction l as [|a l IH]; simpl; [reflexivity | exact IH]. Qed.

(** Compute the calls an unfolded operation has added. *)
Ltac added_calls :=
  unfold emitted; simpl; rewrite <- ?app_assoc; simpl;
  rewrite ?skipn_own_length, ?skipn_whole.

(** Use a membership in a list of calls written out in full. *)
Ltac member_cases H :=
  simpl in H;
  repeat match type of H with
         | _ \/ _ => destruct H as [H | H]
         | False => contradiction
         end;
  try discriminate.

(** X11. Every path an operation gives to pushState or replaceState is
    the full path that [setMicroPathToURL] computes, for the name the
    facade was created with and against the host page as it is when the
    operation starts, for a target resolved against the url the facade was
    created with. *)
Theorem history_path_comes_from_codec `{Env} (op : Op) (w : World) (m p : string) :
  In (HistoryCall m p) (emitted w (run op w)) ->
  exists value target,
    createURL value (Some (MicroLocation.url (location w))) = Some target
    /\ p = fullPath (setMicroPathToURL (calls w)
                       (MicroLocation.appName (location w)) target).
Proof.
  destruct op as [value methodName|value|value|forced|value|value|value|value|path base].
  - unfold_ops.
    destruct (createURL value _) as [t|] eqn:Hres; simpl;
      [split_tests|]; added_calls; intros Hin; member_cases Hin;
      injection Hin as <- <-; exists value, t; auto.
  - unfold_ops. unfold truthy_value.
    destruct (createURL value _) as [t|] eqn:Hres; simpl;
      [split_tests|]; added_calls; intros Hin; member_cases Hin;
      injection Hin as <- <-; exists value, t; auto.
  - unfold_ops. unfold truthy_value.
    destruct (createURL value _) as [t|] eqn:Hres; simpl;
      [split_tests|]; added_calls; intros Hin; member_cases Hin;
      injection Hin as <- <-; exists value, t; auto.
  - unfold_ops. added_calls. intros Hin. member_cases Hin.
  - unfold_ops. unfold truthy_value.
    destruct (createURL value _) as [t|] eqn:Hres; simpl;
      [split_tests|]; added_calls; intros Hin; member_cases Hin;
      injection Hin as <- <-; exists value, t; auto.
  - unfold_ops.
    destruct (createURL _ _) as [t|] eqn:Hres; simpl;
      [split_tests|]; added_calls; intros Hin; member_cases Hin;
      injection Hin as <- <-; eexists; exists t;
      (split; [exact Hres | reflexivity]).
  - unfold_ops.
    destruct (createURL _ _) as [t|] eqn:Hres; simpl;
      [split_tests|]; added_calls; intros Hin; member_cases Hin;
      injection Hin as <- <-; eexists; exists t;
      (split; [exact Hres | reflexivity]).
  - unfold_ops.
    destruct (createURL _ _) as [t|] eqn:Hres; simpl;
      [split_tests|]; added_calls; intros Hin; member_cases Hin;
      injection Hin as <- <-; eexists; exists t;
      (split; [exact Hres | reflexivity]).
  - simpl. unfold emitted. rewrite updateLocation_world.
    destruct (createURL _ _); simpl; rewrite skipn_whole; intros [].
Qed.

Lemma history_path_comes_from_codec_witness :
  let w := Sample.world "/x" "" "#a" in
  exists value target,
    Sample.createURL value (Some "https://app.example/") = Some target
    /\ "/?shop=/z#a" =
       fullPath (Sample.setMicroPathToURL false [] "shop" target).
Proof.
  intros w.
  apply (@history_path_comes_from_codec (Sample.env false) (SetPathname "z") w
           "pushState" "/?shop=/z#a").
  left. reflexivity.
Defined.
